(** * Readout analysis: expectation extraction and the noise-model objective

    A shallow embedding of the two computations of
    [docs/Readout-Analysis.ipynb]:

    - the expectation extraction
      [np.mean((-1)**bitstrings, axis=0).item()] of the loading cell;
    - the closure pair [get_obj_func] / [obj_func] of the fitting cell.

    Numbers.  The notebook computes with IEEE doubles.  Here a float is an
    exact rational ([Q]): comparisons, subtraction, absolute value and sums
    are the exact ones, there is no rounding, no infinity and no nan.  Two
    rationals are compared with [==] ([Qeq]) where the representation of a
    fraction could differ.

    External code.  [cirq]'s density-matrix simulator and noise model are
    not part of the notebook.  They are the fields of the class [Backend]:
    a constructor and a per-angle simulation, both of which may raise.
    The class [Cirq] splits the per-angle simulation into the run of
    [get_circuit(theta)] and the expectation of Z on its result.
    [scipy.optimize.minimize], the caller of the objective function, is not
    modelled; [evaluate] stands for the calls such a caller makes.

    The loading cell is modelled on dicts with string keys; the generator
    [recirq.iterload_records] and [recirq.flatten_dataclass_into_record]
    are not part of the notebook and are taken as given.  Plotting and
    [print_result], which formats floats, are left out. *)

From Stdlib Require Import ZArith QArith Qabs List.
From stdpp Require Import gmap strings pretty.

Local Open Scope Q_scope.

(** ** Python outcomes *)

Inductive exn : Type :=
  | ValueError      (* raised by tuple unpacking, [.item()] and broadcasting *)
  | ExternalError.  (* whatever the external simulator raises *)

Inductive outcome (A : Type) : Type :=
  | Return (a : A)
  | Raise (e : exn).

Arguments Return {A} a.
Arguments Raise {A} e.

(** ** One-dimensional float arrays *)

Definition ndarray : Type := list Q.

(** [a - b] on one-dimensional operands, with numpy's broadcasting: equal
    lengths subtract pointwise, an operand of length one is stretched, any
    other pair of lengths raises [ValueError]. *)
Definition np_subtract (a b : ndarray) : outcome ndarray :=
  if Nat.eqb (length a) (length b) then Return (zip_with Qminus a b)
  else match a, b with
       | [x], _ => Return (map (fun y => x - y) b)
       | _, [y] => Return (map (fun x => x - y) a)
       | _, _ => Raise ValueError
       end.

Definition np_abs (a : ndarray) : ndarray := map Qabs a.

Definition np_sum (a : ndarray) : Q := fold_right Qplus 0 a.

(** ** Expectation extraction *)

(** [ba.bits] for one parameter setting: a two-dimensional integer array
    of shape [(length shots, n_qubits)], one row per shot. *)
Record bitstrings : Type := {
  n_qubits : nat;
  shots : list (list Z)
}.

(** [(-1) ** a], elementwise. *)
Definition np_rpow (base : Z) (a : list (list Z)) : list (list Z) :=
  map (map (Z.pow base)) a.

Definition column (j : nat) (a : list (list Z)) : list Z :=
  map (fun row => nth j row 0%Z) a.

Definition sumZ (l : list Z) : Z := fold_right Z.add 0%Z l.

(** [np.mean(a, axis=0)]: one mean per column.  numpy divides the exact
    integer sum once and rounds the quotient to a double; the quotient
    here is the exact one.  On an array without rows numpy answers nan
    (with a warning); [Q] has no nan and the quotient by zero below is
    then meaningless. *)
Definition np_mean_axis0 (ncols : nat) (a : list (list Z)) : ndarray :=
  map (fun j => inject_Z (sumZ (column j a)) / inject_Z (Z.of_nat (length a)))
      (seq 0 ncols).

(** [a.item()]: the only element of a one-element array. *)
Definition item (a : ndarray) : outcome Q :=
  match a with
  | [v] => Return v
  | _ => Raise ValueError
  end.

(** [np.mean((-1)**bitstrings, axis=0).item()] *)
Definition z_val (b : bitstrings) : outcome Q :=
  item (np_mean_axis0 (n_qubits b) (np_rpow (-1) (shots b))).

(** [[... for bitstrings in all_bitstrings]] *)
Fixpoint z_vals (all_bitstrings : list bitstrings) : outcome (list Q) :=
  match all_bitstrings with
  | [] => Return []
  | b :: rest =>
      match z_val b with
      | Raise e => Raise e
      | Return v =>
          match z_vals rest with
          | Raise e => Raise e
          | Return vs => Return (v :: vs)
          end
      end
  end.

(** The single-qubit array recorded for a list of measured bits: one row
    per shot, one column. *)
Definition single_qubit (bits : list Z) : bitstrings :=
  {| n_qubits := 1; shots := map (fun b => [b]) bits |}.

(** The specification's words: the mean of [(-1)^bit] over the shots. *)
Definition sign_of_bit (bit : Z) : Q := Qpower (-1) bit.

Definition mean (l : list Q) : Q :=
  np_sum l / inject_Z (Z.of_nat (length l)).

Definition mean_of_signs (bits : list Z) : Q := mean (map sign_of_bit bits).

(** ** The store and the calls to the simulator

    [get_obj_func] creates a list, [all_results], that the closure it
    returns keeps appending to and that it also hands to its caller.  The
    list lives in a heap of list objects; the closure and the caller hold
    its location.  Next to the heap the state records, in order, the calls
    made to the external simulator. *)

Definition loc : Type := nat.

Inductive call : Type :=
  | NewSimulator (depol_prob decay_prob bitflip_prob : Q)
  | Simulate (theta : Q).

Record state : Type := {
  heap : gmap loc (list ndarray);
  calls : list call
}.

Definition M (A : Type) : Type := state -> outcome A * state.

Definition ret {A} (a : A) : M A := fun s => (Return a, s).

Definition raise {A} (e : exn) : M A := fun s => (Raise e, s).

Definition bind {A B} (m : M A) (k : A -> M B) : M B :=
  fun s =>
    match m s with
    | (Return a, s') => k a s'
    | (Raise e, s') => (Raise e, s')
    end.

Notation "x <- m ;; k" := (bind m (fun x => k))
  (at level 100, m at next level, right associativity).
Notation "m ;;; k" := (bind m (fun _ => k))
  (at level 100, right associativity).

Definition lift {A} (o : outcome A) : M A := fun s => (o, s).

Definition log (c : call) : M unit :=
  fun s => (Return tt, {| heap := heap s; calls := calls s ++ [c] |}).

(** [l = []] *)
Definition new_list : M loc :=
  fun s =>
    let l := fresh (dom (heap s)) in
    (Return l, {| heap := <[l := []]> (heap s); calls := calls s |}).

(** [l.append(a)] *)
Definition list_append (l : loc) (a : ndarray) : M unit :=
  fun s =>
    (Return tt,
     {| heap := alter (fun rs => rs ++ [a]) l (heap s); calls := calls s |}).

(** ** The external simulator *)

(** [cirq.DensityMatrixSimulator(noise=
      ccn.DepolarizingWithDampedReadoutNoiseModel(depol_prob, decay_prob,
      bitflip_prob))] builds a simulator or raises; [simulate_z sim theta]
    stands for [sim.simulate(get_circuit(theta))] followed by the
    expectation of [cirq.Z(qubit)] on the final density matrix and
    [np.real_if_close(...).item()]. *)
Class Backend : Type := {
  Simulator : Type;
  DensityMatrixSimulator : Q -> Q -> Q -> option Simulator;
  simulate_z : Simulator -> Q -> option Q
}.

Definition external {A} (o : option A) : M A :=
  match o with
  | Some a => ret a
  | None => raise ExternalError
  end.

(** ** The objective function *)

Definition Qltb (x y : Q) : bool := negb (Qle_bool y x).

(** [depol_prob, decay_prob, readout_prob = x] *)
Definition unpack3 (x : list Q) : M (Q * Q * Q) :=
  match x with
  | [a; b; c] => ret (a, b, c)
  | _ => raise ValueError
  end.

(** What [obj_func] closes over: the observed expectation values and the
    list [all_results]. *)
Record closure : Type := {
  data_expectations : list Q;
  all_results : loc
}.

Section Fitter.

Context {B : Backend}.

(** The global [thetas] of the notebook. *)
Variable thetas : list Q.

Definition new_simulator (depol_prob decay_prob readout_prob : Q) : M Simulator :=
  log (NewSimulator depol_prob decay_prob readout_prob) ;;;
  external (DensityMatrixSimulator depol_prob decay_prob readout_prob).

Definition simulated_z (sim : Simulator) (theta : Q) : M Q :=
  log (Simulate theta) ;;;
  external (simulate_z sim theta).

(** [for theta in ts: ...; results.append(...)], started with the list
    [results]. *)
Fixpoint for_theta (sim : Simulator) (ts : list Q) (results : list Q) : M (list Q) :=
  match ts with
  | [] => ret results
  | theta :: ts' =>
      z <- simulated_z sim theta ;;
      for_theta sim ts' (results ++ [z])
  end.

(** The penalty is the Python int [1000], the cost a numpy float; both are
    rationals here. *)
Definition obj_func (f : closure) (x : list Q) : M Q :=
  p <- unpack3 x ;;
  let '(depol_prob, decay_prob, readout_prob) := p in
  if Qltb depol_prob 0 || Qltb decay_prob 0 || Qltb readout_prob 0 then
    ret 1000
  else
    sim <- new_simulator depol_prob decay_prob readout_prob ;;
    results <- for_theta sim thetas [] ;;
    list_append (all_results f) results ;;;
    diff <- lift (np_subtract results (data_expectations f)) ;;
    ret (np_sum (np_abs diff)).

(** [get_obj_func(data_expectations)] returns the closure and the list. *)
Definition get_obj_func (data : list Q) : M (closure * loc) :=
  l <- new_list ;;
  ret ({| data_expectations := data; all_results := l |}, l).

End Fitter.

(** ** Specification-side definitions *)

(** The simulator answers [zs], one value per angle of [ts]. *)
Definition simulated `{Backend} (sim : Simulator) (ts zs : list Q) : Prop :=
  Forall2 (fun theta z => simulate_z sim theta = Some z) ts zs.

(** The sum, over the [n] sweep angles, of the absolute difference between
    the simulated and the observed value at that angle. *)
Definition l1_cost (n : nat) (zs obs : list Q) : Q :=
  fold_right (fun i acc => Qabs (nth i zs 0 - nth i obs 0) + acc) 0 (seq 0 n).

(** Shapes [(n,)] and [(m,)] that numpy can subtract. *)
Definition broadcastable (n m : nat) : Prop :=
  n = m \/ n = 1%nat \/ m = 1%nat.

Definition negative_component (d c r : Q) : Prop :=
  d < 0 \/ c < 0 \/ r < 0.

(** ** A stand-in simulator for the worked examples

    It accepts probabilities up to one and answers
    [(1 - depol_prob) * (1 - theta)] at the angle [theta]. *)

Definition stub_new (d c r : Q) : option (Q * Q * Q) :=
  if Qle_bool d 1 && Qle_bool c 1 && Qle_bool r 1 then Some (d, c, r) else None.

Definition stub_z (sim : Q * Q * Q) (theta : Q) : option Q :=
  let '(d, _, _) := sim in Some ((1 - d) * (1 - theta)).

Definition stub : Backend := {|
  Simulator := Q * Q * Q;
  DensityMatrixSimulator := stub_new;
  simulate_z := stub_z
|}.

Definition empty_state : state := {| heap := ∅; calls := [] |}.

(** The closure and the state right after
    [ofunc, results = get_obj_func(data)] in the empty store: the list is
    at location [0]. *)
Definition objective0 (data : list Q) : closure :=
  {| data_expectations := data; all_results := 0%nat |}.

Definition state0 : state := {| heap := {[ 0%nat := [] ]}; calls := [] |}.

(** ** Callers of the objective function *)

(** The array of simulated values for the components [d], [c] and [r], when
    the simulator answers for them at every angle. *)
Definition simulation `{Backend} (thetas : list Q) (d c r : Q) : option ndarray :=
  match DensityMatrixSimulator d c r with
  | Some sim => mapM (simulate_z sim) thetas
  | None => None
  end.

(** The array that a returning call with [x] appends to [all_results]:
    none on the penalty return. *)
Definition appended `{Backend} (thetas : list Q) (x : list Q) : option ndarray :=
  match x with
  | [d; c; r] =>
      if Qltb d 0 || Qltb c 0 || Qltb r 0 then None else simulation thetas d c r
  | _ => None
  end.

(** A caller, such as [scipy.optimize.minimize], evaluates the objective
    at one point after the other; an exception of a call ends the run.  The
    costs are returned in the order of the points. *)
Fixpoint evaluate `{Backend} (thetas : list Q) (f : closure) (xs : list (list Q))
    : M (list Q) :=
  match xs with
  | [] => ret []
  | x :: xs' =>
      cost <- obj_func thetas f x ;;
      costs <- evaluate thetas f xs' ;;
      ret (cost :: costs)
  end.

(** A second stand-in simulator, which has no answer at negative angles. *)
Definition partial_z (sim : Q * Q * Q) (theta : Q) : option Q :=
  if Qltb theta 0 then None else stub_z sim theta.

Definition partial_stub : Backend := {|
  Simulator := Q * Q * Q;
  DensityMatrixSimulator := stub_new;
  simulate_z := partial_z
|}.

(** Number of shots that measured 1. *)
Definition ones (bits : list Z) : nat := count_occ Z.eq_dec bits 1%Z.

(** Number of shots that measured 0. *)
Definition zeros (bits : list Z) : nat := count_occ Z.eq_dec bits 0%Z.

(** ** Loading the records

    The loading cell iterates over the records that
    [recirq.iterload_records] yields, each a dict with string keys.  Of
    the values only the list of [BitArray]s under ['all_bitstrings'] is
    looked into. *)

Inductive pyval : Type :=
  | BitArrays (arrays : list bitstrings)   (* a list of [BitArray]s *)
  | Floats (values : list Q)               (* a list of floats *)
  | Opaque (repr : string).                (* anything else *)

Inductive load_error : Type :=
  | KeyError (key : string)
  | TypeOrAttributeError   (* iterating over, or reading [.bits] of, a value
                              that is not a list of [BitArray]s *)
  | Raised (e : exn).

(** The body of the loop after the flattening of the task:
    [all_bitstrings = [ba.bits for ba in record['all_bitstrings']]],
    [record['z_vals'] = [...]], [del record['all_bitstrings']]. *)
Definition extract_z_vals (record : gmap string pyval)
    : load_error + gmap string pyval :=
  match record !! "all_bitstrings" with
  | None => inl (KeyError "all_bitstrings")
  | Some (BitArrays all_bitstrings) =>
      match z_vals all_bitstrings with
      | Raise e => inl (Raised e)
      | Return zs =>
          inr (delete "all_bitstrings" (<["z_vals" := Floats zs]> record))
      end
  | Some _ => inl TypeOrAttributeError
  end.

Section Loader.

(** [recirq.flatten_dataclass_into_record(record, 'task')], which is not
    part of the notebook. *)
Variable flatten_dataclass_into_record :
  gmap string pyval -> load_error + gmap string pyval.

(** [for record in loaded: ...; records.append(record)], started with the
    list [records]; the result is the exception that ended the loop, if
    any, and the list. *)
Fixpoint load_records (loaded records : list (gmap string pyval))
    : option load_error * list (gmap string pyval) :=
  match loaded with
  | [] => (None, records)
  | record :: rest =>
      match flatten_dataclass_into_record record with
      | inl e => (Some e, records)
      | inr flat =>
          match extract_z_vals flat with
          | inl e => (Some e, records)
          | inr row => load_records rest (records ++ [row])
          end
      end
  end.

(** One record is turned into the row [row]. *)
Definition loads (record row : gmap string pyval) : Prop :=
  exists flat,
    flatten_dataclass_into_record record = inr flat /\
    extract_z_vals flat = inr row.

(** One record makes the loop raise [e]. *)
Definition fails (record : gmap string pyval) (e : load_error) : Prop :=
  flatten_dataclass_into_record record = inl e \/
  exists flat,
    flatten_dataclass_into_record record = inr flat /\
    extract_z_vals flat = inl e.

End Loader.

(** A stand-in for the flattening: it moves the value of ['task'] to the
    key ['qubit'], and raises [KeyError] without a ['task']. *)
Definition stub_flatten (record : gmap string pyval)
    : load_error + gmap string pyval :=
  match record !! "task" with
  | Some v => inr (<["qubit" := v]> (delete "task" record))
  | None => inl (KeyError "task")
  end.

Definition record0 : gmap string pyval :=
  {[ "task" := Opaque "q";
     "thetas" := Floats [0; 1];
     "all_bitstrings" :=
       BitArrays [single_qubit [0; 0]%Z; single_qubit [0; 1]%Z] ]}.

Definition row0 : gmap string pyval :=
  {[ "qubit" := Opaque "q";
     "thetas" := Floats [0; 1];
     "z_vals" := Floats [2 # 2; 0 # 2] ]}.

(** ** The dummy measurement gate

    [_DummyMeasurementGate] is an identity gate on [num_qubits] qubits
    that declares a measurement key. *)

Record DummyMeasurementGate : Type := { num_qubits : nat }.

(** [_measurement_key_] *)
Definition measurement_key (g : DummyMeasurementGate) : string := "dummy!".

(** [__repr__] *)
Definition gate_repr (g : DummyMeasurementGate) : string :=
  if Nat.eqb (num_qubits g) 1 then "_DummyMeasurementGate"
  else "_DummyMeasurementGate(" +:+ pretty (num_qubits g) +:+ ")".

(** [__str__] *)
Definition gate_str (g : DummyMeasurementGate) : string :=
  if Nat.eqb (num_qubits g) 1 then "dummyM"
  else "dummyM(" +:+ pretty (num_qubits g) +:+ ")".

(** ** The circuit and the simulation of one angle

    Inside the loop of [obj_func] the simulator runs
    [get_circuit(theta)], and the expectation of [cirq.Z(qubit)] is read
    off the final density matrix.  [Cirq] names the three calls into the
    library; [cirq_backend] is the simulator of [obj_func] made of them. *)

(** [qubit = cirq.LineQubit(0)] *)
Definition qubit : nat := 0%nat.

Inductive operation : Type :=
  | ry (theta : Q) (q : nat)                           (* [cirq.ry(theta).on(q)] *)
  | on (gate : DummyMeasurementGate) (qubits : list nat).  (* [gate.on( *qubits)] *)

(** [dummy_measure(qubits)] *)
Definition dummy_measure (qubits : list nat) : operation :=
  on {| num_qubits := length qubits |} qubits.

(** [get_circuit(theta)] *)
Definition get_circuit (theta : Q) : list operation :=
  [ry theta qubit; dummy_measure [qubit]].

(** [density_matrix_simulator] is the constructor with the noise model;
    [simulate sim circuit] is [sim.simulate(circuit)], whose result holds
    the final density matrix and the qubit map; [expectation_z result] is
    [(cirq.Z(qubit) * 1.).expectation_from_wavefunction(...)] on them,
    followed by [np.real_if_close(...).item()].  Each may raise. *)
Class Cirq : Type := {
  simulator : Type;
  simulation_result : Type;
  density_matrix_simulator : Q -> Q -> Q -> option simulator;
  simulate : simulator -> list operation -> option simulation_result;
  expectation_z : simulation_result -> option Q
}.

Definition cirq_backend (C : Cirq) : Backend := {|
  Simulator := simulator;
  DensityMatrixSimulator := density_matrix_simulator;
  simulate_z := fun sim theta =>
    match simulate sim (get_circuit theta) with
    | Some result => expectation_z result
    | None => None
    end
|}.

(** [zs] are the expectation values that the simulations of the circuits
    of the angles [ts] give. *)
Definition expectations `{Cirq} (sim : simulator) (ts zs : list Q) : Prop :=
  Forall2 (fun theta z =>
             exists result,
               simulate sim (get_circuit theta) = Some result /\
               expectation_z result = Some z) ts zs.

(** The stand-in simulator behind these three calls: it runs circuits of
    the shape of [get_circuit] only. *)
Definition stub_simulate (sim : Q * Q * Q) (circuit : list operation) : option Q :=
  match circuit with
  | [ry theta _; on _ _] => stub_z sim theta
  | _ => None
  end.

Definition stub_cirq : Cirq := {|
  simulator := Q * Q * Q;
  simulation_result := Q;
  density_matrix_simulator := stub_new;
  simulate := stub_simulate;
  expectation_z := Some
|}.

(** * Properties *)

(** ** Arithmetic helpers *)

Lemma Qltb_lt (x y : Q) : Qltb x y = true <-> x < y.
Proof.
  unfold Qltb. rewrite negb_true_iff. split.
  - intros E. apply Qnot_le_lt. intros Hle.
    apply Qle_bool_iff in Hle. congruence.
  - intros Hlt. destruct (Qle_bool y x) eqn:E; [|reflexivity].
    apply Qle_bool_iff in E. destruct (Qlt_not_le _ _ Hlt E).
Qed.

Lemma Qltb_ge (x y : Q) : Qltb x y = false <-> y <= x.
Proof.
  unfold Qltb. rewrite negb_false_iff. apply Qle_bool_iff.
Qed.

Lemma penalty_test_true (d c r : Q) :
  Qltb d 0 || Qltb c 0 || Qltb r 0 = true <-> negative_component d c r.
Proof.
  unfold negative_component.
  rewrite !orb_true_iff, !Qltb_lt. tauto.
Qed.

Lemma penalty_test_false (d c r : Q) :
  Qltb d 0 || Qltb c 0 || Qltb r 0 = false <-> 0 <= d /\ 0 <= c /\ 0 <= r.
Proof.
  rewrite !orb_false_iff, !Qltb_ge. tauto.
Qed.


Lemma np_sum_abs_nonneg (a : ndarray) : 0 <= np_sum (np_abs a).
Proof.
  induction a as [|x a IH]; simpl.
  - apply Qle_refl.
  - replace 0 with (0 + 0) by reflexivity.
    apply Qplus_le_compat; [apply Qabs_nonneg | exact IH].
Qed.

Lemma np_subtract_same_length (a b : ndarray) :
  length a = length b -> np_subtract a b = Return (zip_with Qminus a b).
Proof.
  intros E. unfold np_subtract. now rewrite E, Nat.eqb_refl.
Qed.

Lemma np_subtract_broadcastable (a b : ndarray) :
  broadcastable (length a) (length b) -> exists d, np_subtract a b = Return d.
Proof.
  unfold np_subtract. intros Hb.
  destruct (Nat.eqb (length a) (length b)) eqn:E; [eauto|].
  apply Nat.eqb_neq in E.
  destruct Hb as [Hb|[Hb|Hb]]; [contradiction| |].
  - destruct a as [|x [|? ?]]; simpl in Hb; try discriminate. eauto.
  - destruct b as [|y [|? ?]]; simpl in Hb; try discriminate.
    destruct a as [|x [|? ?]]; eauto.
Qed.

Lemma l1_cost_pointwise (zs obs : list Q) :
  length zs = length obs ->
  np_sum (np_abs (zip_with Qminus zs obs)) = l1_cost (length zs) zs obs.
Proof.
  unfold l1_cost.
  assert (G : forall pz po, length pz = length po ->
            forall zs obs, length zs = length obs ->
            np_sum (np_abs (zip_with Qminus zs obs)) =
            fold_right (fun i acc => Qabs (nth i (pz ++ zs) 0 - nth i (po ++ obs) 0) + acc)
                       0 (seq (length pz) (length zs))).
  { intros pz po Hp zs0. revert pz po Hp.
    induction zs0 as [|z zs0 IH]; intros pz po Hp [|o obs0] Hl;
      simpl in Hl; try discriminate; [reflexivity|].
    cbn [length seq fold_right zip_with np_abs map np_sum]. f_equal.
    - rewrite nth_middle, Hp, nth_middle. reflexivity.
    - specialize (IH (pz ++ [z]) (po ++ [o])).
      rewrite !length_app in IH. cbn [length] in IH. rewrite !Nat.add_1_r in IH.
      specialize (IH (f_equal S Hp) obs0 (eq_add_S _ _ Hl)).
      rewrite <- !app_assoc in IH. exact IH. }
  intros Hl. exact (G [] [] eq_refl zs obs Hl).
Qed.

Lemma np_sum_abs_self (a : ndarray) : np_sum (np_abs (zip_with Qminus a a)) == 0.
Proof.
  induction a as [|x a IH]; cbn [zip_with np_abs map np_sum fold_right].
  - reflexivity.
  - change (Qabs (x - x) + np_sum (np_abs (zip_with Qminus a a)) == 0).
    assert (E : x - x == 0) by ring.
    rewrite IH, E. reflexivity.
Qed.

(** ** Expectation extraction *)

Lemma column_single_qubit (bits : list Z) :
  column 0 (np_rpow (-1) (map (fun b => [b]) bits)) = map (Z.pow (-1)) bits.
Proof.
  unfold column, np_rpow. rewrite !map_map. reflexivity.
Qed.

Lemma sum_of_signs (bits : list Z) :
  Forall (fun b => b = 0%Z \/ b = 1%Z) bits ->
  inject_Z (sumZ (map (Z.pow (-1)) bits)) == np_sum (map sign_of_bit bits).
Proof.
  induction 1 as [|b bits Hb _ IH]; cbn [map sumZ np_sum fold_right].
  - reflexivity.
  - rewrite inject_Z_plus.
    change (inject_Z ((-1) ^ b) + inject_Z (sumZ (map (Z.pow (-1)) bits)) ==
            sign_of_bit b + np_sum (map sign_of_bit bits)).
    rewrite IH. destruct Hb as [-> | ->]; reflexivity.
Qed.

(** The comprehension over a record whose arrays all have one column
    returns one value per parameter setting. *)
Lemma z_vals_single_qubit (all_bits : list (list Z)) :
  exists vs,
    z_vals (map single_qubit all_bits) = Return vs /\
    length vs = length all_bits.
Proof.
  induction all_bits as [|bits rest [vs [E Hl]]]; cbn [map z_vals].
  - now exists [].
  - change (z_val (single_qubit bits)) with
      (Return (inject_Z (sumZ (column 0 (np_rpow (-1) (shots (single_qubit bits))))) /
               inject_Z (Z.of_nat (length (np_rpow (-1) (shots (single_qubit bits))))))).
    rewrite E. eexists. split; [reflexivity|]. cbn [length]. now rewrite Hl.
Qed.

(** C3.  For a non-empty list of measured bits, each 0 or 1, recorded as a
    one-column array with one row per shot, the extraction
    [np.mean((-1)**bitstrings, axis=0).item()] returns a single scalar,
    and that scalar is the mean of [(-1)^bit] over the shots.  (On an
    empty list numpy answers nan, which a rational cannot represent.) *)
Theorem z_val_is_mean_of_signs (bits : list Z) :
  bits <> [] ->
  Forall (fun b => b = 0%Z \/ b = 1%Z) bits ->
  exists v, z_val (single_qubit bits) = Return v /\ v == mean_of_signs bits.
Proof.
  intros _ Hbits. eexists. split; [reflexivity|].
  cbn [n_qubits shots single_qubit]. rewrite column_single_qubit.
  unfold mean_of_signs, mean, np_rpow.
  rewrite !length_map, (sum_of_signs bits Hbits). reflexivity.
Qed.

(** ** Running the monadic code *)

Lemma state_eta (s : state) : {| heap := heap s; calls := calls s |} = s.
Proof. now destruct s. Qed.

Section FitterProperties.

Context {B : Backend}.
Variable thetas : list Q.

Lemma for_theta_ok (sim : Simulator) (ts zs : list Q) :
  simulated sim ts zs ->
  forall acc s,
    for_theta sim ts acc s =
    (Return (acc ++ zs),
     {| heap := heap s; calls := calls s ++ map Simulate ts |}).
Proof.
  induction 1 as [|theta z ts zs Hz _ IH]; intros acc s.
  - cbn [for_theta map]. unfold ret. now rewrite !app_nil_r, state_eta.
  - cbn [for_theta map]. unfold bind at 1.
    unfold simulated_z, bind, log, external. rewrite Hz. unfold ret.
    rewrite IH. cbn [heap calls]. now rewrite <- !app_assoc.
Qed.

Lemma for_theta_length (sim : Simulator) (ts zs : list Q) :
  simulated sim ts zs -> length zs = length ts.
Proof. intros H. symmetry. exact (Forall2_length _ _ _ H). Qed.

(** Whether or not the simulator raises, the loop leaves the heap alone,
    only extends the record of calls, and its outcome does not depend on
    the state it starts from. *)
Lemma for_theta_frame (sim : Simulator) (ts : list Q) :
  forall acc s,
    heap (snd (for_theta sim ts acc s)) = heap s /\
    (exists ext, calls (snd (for_theta sim ts acc s)) = calls s ++ ext) /\
    (forall s2, fst (for_theta sim ts acc s2) = fst (for_theta sim ts acc s)).
Proof.
  induction ts as [|theta ts IH]; intros acc s.
  - cbn [for_theta]. unfold ret. cbn [fst snd].
    split; [reflexivity|]. split; [|reflexivity].
    exists []. now rewrite app_nil_r.
  - cbn [for_theta]. unfold bind at 1 3 4.
    unfold simulated_z, bind, log, external.
    destruct (simulate_z sim theta) as [z|]; cbn.
    + destruct (IH (acc ++ [z]) {| heap := heap s; calls := calls s ++ [Simulate theta] |})
        as (Hh & [ext He] & Ho).
      split; [exact Hh|]. split.
      * exists (Simulate theta :: ext). rewrite He. cbn. now rewrite <- app_assoc.
      * intros s2. rewrite Ho. symmetry. apply Ho.
    + split; [reflexivity|]. split; [|reflexivity]. now exists [Simulate theta].
Qed.

Lemma obj_func_unfold (f : closure) (d c r : Q) (s : state) :
  obj_func thetas f [d; c; r] s =
  if Qltb d 0 || Qltb c 0 || Qltb r 0 then (Return 1000, s)
  else (sim <- new_simulator d c r ;;
        results <- for_theta sim thetas [] ;;
        list_append (all_results f) results ;;;
        diff <- lift (np_subtract results (data_expectations f)) ;;
        ret (np_sum (np_abs diff))) s.
Proof.
  unfold obj_func, unpack3. unfold bind at 1. unfold ret at 1.
  now destruct (Qltb d 0 || Qltb c 0 || Qltb r 0).
Qed.

Lemma obj_func_penalty_run (f : closure) (d c r : Q) (s : state) :
  negative_component d c r -> obj_func thetas f [d; c; r] s = (Return 1000, s).
Proof.
  intros H. apply penalty_test_true in H. now rewrite obj_func_unfold, H.
Qed.

Lemma obj_func_simulated_run (f : closure) (d c r : Q) (s : state)
    (sim : Simulator) (zs : list Q) :
  0 <= d -> 0 <= c -> 0 <= r ->
  DensityMatrixSimulator d c r = Some sim ->
  simulated sim thetas zs ->
  obj_func thetas f [d; c; r] s =
  (match np_subtract zs (data_expectations f) with
   | Return diff => Return (np_sum (np_abs diff))
   | Raise e => Raise e
   end,
   {| heap := alter (fun rs => rs ++ [zs]) (all_results f) (heap s);
      calls := calls s ++ NewSimulator d c r :: map Simulate thetas |}).
Proof.
  intros Hd Hc Hr Hsim Hzs.
  assert (E : Qltb d 0 || Qltb c 0 || Qltb r 0 = false)
    by now apply penalty_test_false.
  rewrite obj_func_unfold, E.
  unfold bind at 1. unfold new_simulator, bind, log, external. rewrite Hsim.
  unfold ret at 1. rewrite (for_theta_ok sim thetas zs Hzs).
  unfold list_append, lift, ret. cbn [heap calls app].
  rewrite <- app_assoc. cbn [app].
  now destruct (np_subtract zs (data_expectations f)).
Qed.

(** The paths through a call on a 3-vector. *)
Lemma obj_func_cases (f : closure) (d c r : Q) (s : state) :
  obj_func thetas f [d; c; r] s =
  if Qltb d 0 || Qltb c 0 || Qltb r 0 then (Return 1000, s)
  else match DensityMatrixSimulator d c r with
       | None => (Raise ExternalError,
                  {| heap := heap s; calls := calls s ++ [NewSimulator d c r] |})
       | Some sim =>
           let s1 := {| heap := heap s; calls := calls s ++ [NewSimulator d c r] |} in
           match for_theta sim thetas [] s1 with
           | (Raise e, s2) => (Raise e, s2)
           | (Return zs, s2) =>
               (match np_subtract zs (data_expectations f) with
                | Return diff => Return (np_sum (np_abs diff))
                | Raise e => Raise e
                end,
                {| heap := alter (fun rs => rs ++ [zs]) (all_results f) (heap s2);
                   calls := calls s2 |})
           end
       end.
Proof.
  rewrite obj_func_unfold.
  destruct (Qltb d 0 || Qltb c 0 || Qltb r 0); [reflexivity|].
  unfold bind at 1. unfold new_simulator, bind, log, external.
  destruct (DensityMatrixSimulator d c r) as [sim|]; [|reflexivity].
  unfold ret at 1. cbv zeta.
  destruct (for_theta sim thetas [] _) as [[zs|e] s2]; [|reflexivity].
  unfold list_append, lift, ret.
  now destruct (np_subtract zs (data_expectations f)).
Qed.

(** What a call can do to the state, whatever [x] is and whether or not
    something raises: the heap is untouched or the list of the closure got
    one more array; the outcome is a function of the arguments alone. *)
Lemma obj_func_frame (f : closure) (x : list Q) (s : state) :
  (heap (snd (obj_func thetas f x s)) = heap s \/
   exists zs, heap (snd (obj_func thetas f x s)) =
              alter (fun rs => rs ++ [zs]) (all_results f) (heap s)) /\
  (forall s2, fst (obj_func thetas f x s2) = fst (obj_func thetas f x s)).
Proof.
  destruct x as [|d [|c [|r [|? ?]]]];
    try (split; [left|intros s2]; reflexivity).
  split.
  - rewrite obj_func_cases.
    destruct (Qltb d 0 || Qltb c 0 || Qltb r 0); [now left|].
    destruct (DensityMatrixSimulator d c r) as [sim|]; [|now left].
    cbv zeta.
    destruct (for_theta_frame sim thetas []
                {| heap := heap s; calls := calls s ++ [NewSimulator d c r] |})
      as (Hh & _ & _).
    destruct (for_theta sim thetas [] _) as [[zs|e] s4]; cbn [snd heap] in *.
    + right. exists zs. now rewrite Hh.
    + now left.
  - intros s2. rewrite !obj_func_cases.
    destruct (Qltb d 0 || Qltb c 0 || Qltb r 0); [reflexivity|].
    destruct (DensityMatrixSimulator d c r) as [sim|]; [|reflexivity].
    cbv zeta.
    destruct (for_theta_frame sim thetas []
                {| heap := heap s; calls := calls s ++ [NewSimulator d c r] |})
      as (_ & _ & Ho).
    specialize (Ho {| heap := heap s2; calls := calls s2 ++ [NewSimulator d c r] |}).
    destruct (for_theta sim thetas [] {| heap := heap s; calls := _ |}) as [o1 s4].
    destruct (for_theta sim thetas [] {| heap := heap s2; calls := _ |}) as [o2 s5].
    cbn [fst] in Ho. subst o2. now destruct o1.
Qed.


(** ** The objective function *)

(** C1.  Whatever the observed expectation values and the state, a call
    with a 3-vector that has a negative component returns exactly 1000
    (and changes nothing). *)
Theorem obj_func_negative_returns_1000 (f : closure) (d c r : Q) (s : state) :
  d < 0 \/ c < 0 \/ r < 0 ->
  obj_func thetas f [d; c; r] s = (Return 1000, s).
Proof.
  intros H. now apply obj_func_penalty_run.
Qed.

(** The cost of a call for which the simulator answers, with one observed
    value per sweep angle. *)
Lemma obj_func_l1_cost_run (f : closure) (d c r : Q) (s : state)
    (sim : Simulator) (zs : list Q) :
  0 <= d -> 0 <= c -> 0 <= r ->
  DensityMatrixSimulator d c r = Some sim ->
  simulated sim thetas zs ->
  length (data_expectations f) = length thetas ->
  fst (obj_func thetas f [d; c; r] s) =
    Return (l1_cost (length thetas) zs (data_expectations f)) /\
  calls (snd (obj_func thetas f [d; c; r] s)) =
    calls s ++ NewSimulator d c r :: map Simulate thetas.
Proof.
  intros Hd Hc Hr Hsim Hzs Hlen.
  pose proof (for_theta_length sim thetas zs Hzs) as Hl.
  rewrite (obj_func_simulated_run f d c r s sim zs Hd Hc Hr Hsim Hzs).
  cbn [fst snd calls]. split; [|reflexivity].
  rewrite np_subtract_same_length by congruence.
  rewrite l1_cost_pointwise by congruence. now rewrite Hl.
Qed.

(** C4.  With three non-negative components, a value that the call
    returns is non-negative; and the call does return a value when the
    simulator answers and the number of observed values is one that numpy
    can subtract from the number of sweep angles. *)
Theorem obj_func_nonnegative (f : closure) (d c r : Q) (s : state) :
  0 <= d -> 0 <= c -> 0 <= r ->
  (forall cost, fst (obj_func thetas f [d; c; r] s) = Return cost -> 0 <= cost) /\
  (forall sim zs,
     DensityMatrixSimulator d c r = Some sim ->
     simulated sim thetas zs ->
     broadcastable (length thetas) (length (data_expectations f)) ->
     exists cost, fst (obj_func thetas f [d; c; r] s) = Return cost).
Proof.
  intros Hd Hc Hr. split.
  - intros cost. rewrite obj_func_cases.
    destruct (Qltb d 0 || Qltb c 0 || Qltb r 0).
    { intros [= <-]. discriminate. }
    destruct (DensityMatrixSimulator d c r) as [sim|]; [|discriminate].
    cbv zeta. destruct (for_theta sim thetas [] _) as [[zs|e] s2]; [|discriminate].
    destruct (np_subtract zs (data_expectations f)) as [diff|e]; [|discriminate].
    intros [= <-]. apply np_sum_abs_nonneg.
  - intros sim zs Hsim Hzs Hb.
    rewrite (obj_func_simulated_run f d c r s sim zs Hd Hc Hr Hsim Hzs).
    rewrite <- (for_theta_length sim thetas zs Hzs) in Hb.
    destruct (np_subtract_broadcastable _ _ Hb) as [diff ->].
    now exists (np_sum (np_abs diff)).
Qed.

(** C5.  With three non-negative components, if the values the simulator
    answers at the sweep angles are the observed expectation values, the
    call returns 0. *)
Theorem obj_func_zero_on_match (f : closure) (d c r : Q) (s : state)
    (sim : Simulator) :
  0 <= d -> 0 <= c -> 0 <= r ->
  DensityMatrixSimulator d c r = Some sim ->
  simulated sim thetas (data_expectations f) ->
  exists cost,
    fst (obj_func thetas f [d; c; r] s) = Return cost /\ cost == 0.
Proof.
  intros Hd Hc Hr Hsim Hzs.
  rewrite (obj_func_simulated_run f d c r s sim _ Hd Hc Hr Hsim Hzs).
  rewrite np_subtract_same_length by reflexivity.
  eexists. split; [reflexivity|]. apply np_sum_abs_self.
Qed.

(** C7, as amended.  The list [all_results] is the one piece of state a
    call can change, and it is shared with the caller of [get_obj_func]:
    a call leaves every other object alone, keeps what the list already
    holds and at most appends to it; the outcome of a call does not depend
    on the state. *)
Theorem obj_func_only_appends (f : closure) (x : list Q) (s : state) :
  (forall l, l <> all_results f ->
     heap (snd (obj_func thetas f x s)) !! l = heap s !! l) /\
  (forall rs, heap s !! all_results f = Some rs ->
     exists ext,
       heap (snd (obj_func thetas f x s)) !! all_results f = Some (rs ++ ext)) /\
  (forall s2, fst (obj_func thetas f x s2) = fst (obj_func thetas f x s)).
Proof.
  destruct (obj_func_frame f x s) as [[Hh | [zs Hh]] Ho];
    (split; [|split; [|exact Ho]]); rewrite Hh.
  - reflexivity.
  - intros rs Hrs. exists []. now rewrite app_nil_r.
  - intros l Hl. now rewrite lookup_alter_ne.
  - intros rs Hrs. exists [zs]. now rewrite lookup_alter_eq, Hrs.
Qed.


End FitterProperties.

Section CirqFitter.

Context {C : Cirq}.
Variable thetas : list Q.

Lemma expectations_simulated (sim : simulator) (ts zs : list Q) :
  expectations sim ts zs -> simulated (H:=cirq_backend C) sim ts zs.
Proof.
  unfold expectations, simulated.
  induction 1 as [|theta z ts zs (result & Hsim & Hz) _ IH]; constructor.
  - cbn. now rewrite Hsim.
  - exact IH.
Qed.

(** C2, as amended.  With three non-negative components for which the
    simulator can be built, when the simulation of [get_circuit(theta)]
    and the expectation of Z on its result answer at every sweep angle,
    and with one observed value per sweep angle, the call builds the
    simulator once with the noise model of exactly these components,
    simulates once per sweep angle, in order, and returns the sum over the
    sweep angles of the absolute differences between the simulated and the
    observed expectation values. *)
Theorem obj_func_returns_l1_cost (f : closure) (d c r : Q) (s : state)
    (sim : simulator) (zs : list Q) :
  0 <= d -> 0 <= c -> 0 <= r ->
  density_matrix_simulator d c r = Some sim ->
  expectations sim thetas zs ->
  length (data_expectations f) = length thetas ->
  fst (obj_func (B:=cirq_backend C) thetas f [d; c; r] s) =
    Return (l1_cost (length thetas) zs (data_expectations f)) /\
  calls (snd (obj_func (B:=cirq_backend C) thetas f [d; c; r] s)) =
    calls s ++ NewSimulator d c r :: map Simulate thetas.
Proof.
  intros Hd Hc Hr Hsim Hzs Hlen.
  apply (obj_func_l1_cost_run (B:=cirq_backend C) thetas f d c r s sim zs);
    try assumption.
  now apply expectations_simulated.
Qed.

End CirqFitter.

(** X17.  [get_obj_func] always returns.  It allocates an empty list at a
    location that was free and returns that one location twice: inside
    the closure, next to the observed values, and to the caller; the
    simulator is not called. *)
Lemma get_obj_func_shares_list (data : list Q) (s : state) :
  exists f l s',
    get_obj_func data s = (Return (f, l), s') /\
    all_results f = l /\ data_expectations f = data /\
    heap s !! l = None /\ heap s' = <[l := []]> (heap s) /\ calls s' = calls s.
Proof.
  eexists _, _, _. split; [reflexivity|]. cbn.
  repeat split. apply not_elem_of_dom, is_fresh.
Qed.

(** ** Worked instances, on the stand-in simulator *)

Lemma z_val_is_mean_of_signs_witness :
  [0; 1; 1; 0; 0]%Z <> [] /\
  Forall (fun b => b = 0%Z \/ b = 1%Z) [0; 1; 1; 0; 0]%Z /\
  exists v, z_val (single_qubit [0; 1; 1; 0; 0]%Z) = Return v /\
            v == mean_of_signs [0; 1; 1; 0; 0]%Z.
Proof.
  assert (H1 : [0; 1; 1; 0; 0]%Z <> []) by discriminate.
  assert (H2 : Forall (fun b => b = 0%Z \/ b = 1%Z) [0; 1; 1; 0; 0]%Z)
    by (repeat constructor; auto).
  exact (conj H1 (conj H2 (z_val_is_mean_of_signs _ H1 H2))).
Defined.

Lemma obj_func_negative_returns_1000_witness :
  (0 < 0 \/ -1 # 2 < 0 \/ 0 < 0) /\
  obj_func (B:=stub) [0; 1] (objective0 [1; 0]) [0; -1 # 2; 0] state0 =
  (Return 1000, state0).
Proof.
  assert (H : 0 < 0 \/ -1 # 2 < 0 \/ 0 < 0) by (right; left; reflexivity).
  exact (conj H (obj_func_negative_returns_1000 (B:=stub) [0; 1]
                   (objective0 [1; 0]) 0 (-1 # 2) 0 state0 H)).
Defined.

Lemma stub_simulated : simulated (H:=stub) (0, 0, 0) [0; 1] [1; 0].
Proof. repeat constructor. Defined.

Lemma stub_expectations : expectations (H:=stub_cirq) (0, 0, 0) [0; 1] [1; 0].
Proof.
  constructor; [exists 1; split; reflexivity|].
  constructor; [exists 0; split; reflexivity|].
  constructor.
Defined.

Lemma obj_func_returns_l1_cost_witness :
  fst (obj_func (B:=cirq_backend stub_cirq) [0; 1]
         (objective0 [1 # 2; 1 # 2]) [0; 0; 0] state0) =
    Return (l1_cost 2 [1; 0] [1 # 2; 1 # 2]) /\
  calls (snd (obj_func (B:=cirq_backend stub_cirq) [0; 1]
                (objective0 [1 # 2; 1 # 2]) [0; 0; 0] state0)) =
    [NewSimulator 0 0 0; Simulate 0; Simulate 1].
Proof.
  apply (obj_func_returns_l1_cost (C:=stub_cirq) [0; 1]
           (objective0 [1 # 2; 1 # 2]) 0 0 0 state0 (0, 0, 0) [1; 0]).
  - discriminate.
  - discriminate.
  - discriminate.
  - reflexivity.
  - exact stub_expectations.
  - reflexivity.
Defined.

Lemma obj_func_nonnegative_witness :
  exists cost,
    fst (obj_func (B:=stub) [0; 1] (objective0 [1 # 2]) [0; 0; 0] state0) =
      Return cost /\ 0 <= cost.
Proof.
  assert (H0 : 0 <= 0) by discriminate.
  destruct (obj_func_nonnegative (B:=stub) [0; 1] (objective0 [1 # 2])
              0 0 0 state0 H0 H0 H0) as [Hpos Hret].
  destruct (Hret (0, 0, 0) [1; 0] eq_refl stub_simulated
              (or_intror (or_intror eq_refl))) as [cost Hcost].
  exists cost. split; [exact Hcost | exact (Hpos cost Hcost)].
Defined.

Lemma obj_func_zero_on_match_witness :
  exists cost,
    fst (obj_func (B:=stub) [0; 1] (objective0 [1; 0]) [0; 0; 0] state0) =
      Return cost /\ cost == 0.
Proof.
  apply (obj_func_zero_on_match (B:=stub) [0; 1] (objective0 [1; 0])
           0 0 0 state0 (0, 0, 0)).
  - discriminate.
  - discriminate.
  - discriminate.
  - reflexivity.
  - exact stub_simulated.
Defined.

(** ** Where the specification does not hold as written *)

(** C7, as written, fails: the list that [get_obj_func] returns to its
    caller is empty before a call of the closure with [[0; 0; 0]] and
    holds the simulated array after it. *)
Lemma obj_func_mutates_shared_list :
  get_obj_func [1; 0] empty_state =
    (Return (objective0 [1; 0], all_results (objective0 [1; 0])), state0) /\
  heap state0 !! all_results (objective0 [1; 0]) = Some [] /\
  heap (snd (obj_func (B:=stub) [0; 1] (objective0 [1; 0]) [0; 0; 0] state0))
    !! all_results (objective0 [1; 0]) = Some [[1; 0]] /\
  heap (snd (obj_func (B:=stub) [0; 1] (objective0 [1; 0]) [0; 0; 0] state0)) <>
    heap state0.
Proof.
  split; [reflexivity|]. split; [reflexivity|]. split; [reflexivity|].
  intros E.
  assert (E' : heap (snd (obj_func (B:=stub) [0; 1] (objective0 [1; 0]) [0; 0; 0] state0))
               !! 0%nat = heap state0 !! 0%nat) by now rewrite E.
  discriminate E'.
Qed.

(** C2, as written, fails: no component of [[2; 0; 0]] is negative, yet
    the simulator is not built for a probability of 2 and the call raises
    instead of returning a cost; and with three observed values for two
    sweep angles the call with [[0; 0; 0]] raises at the subtraction. *)
Lemma obj_func_raises_without_negative :
  (0 <= 2 /\ 0 <= 0 /\ 0 <= 0) /\
  fst (obj_func (B:=cirq_backend stub_cirq) [0; 1] (objective0 [1; 0])
         [2; 0; 0] state0) = Raise ExternalError /\
  fst (obj_func (B:=cirq_backend stub_cirq) [0; 1] (objective0 [1; 0; 3])
         [0; 0; 0] state0) = Raise ValueError.
Proof.
  split; [repeat split; discriminate|]. split; reflexivity.
Qed.

(** C10, as written, fails: the call with [[2; 0; 0]] is not penalised,
    but the simulator is not built and the list is as empty after the
    call as before it. *)
Lemma obj_func_raises_without_append :
  ~ (2 < 0 \/ 0 < 0 \/ 0 < 0) /\
  fst (obj_func (B:=stub) [0; 1] (objective0 [1; 0]) [2; 0; 0] state0) =
    Raise ExternalError /\
  heap state0 !! all_results (objective0 [1; 0]) = Some [] /\
  heap (snd (obj_func (B:=stub) [0; 1] (objective0 [1; 0]) [2; 0; 0] state0))
    !! all_results (objective0 [1; 0]) = Some [].
Proof.
  split; [intros [H | [H | H]]; discriminate H|].
  repeat split.
Qed.

(** * Further properties of the notebook's code *)

(** ** Expectation extraction: shapes, counts and bounds *)

Lemma z_val_single_qubit (bits : list Z) :
  z_val (single_qubit bits) =
  Return (inject_Z (sumZ (map (Z.pow (-1)) bits)) /
          inject_Z (Z.of_nat (length bits))).
Proof.
  unfold z_val. cbn [n_qubits shots single_qubit np_mean_axis0 seq map item].
  rewrite column_single_qubit. unfold np_rpow. now rewrite !length_map.
Qed.

Lemma ones_le_length (bits : list Z) : (ones bits <= length bits)%nat.
Proof. apply count_occ_bound. Qed.

Lemma sum_of_signs_count (bits : list Z) :
  Forall (fun b => b = 0%Z \/ b = 1%Z) bits ->
  sumZ (map (Z.pow (-1)) bits) =
  (Z.of_nat (length bits) - 2 * Z.of_nat (ones bits))%Z.
Proof.
  unfold ones.
  induction 1 as [|b bits Hb _ IH]; [reflexivity|].
  cbn [map sumZ fold_right length count_occ].
  change (fold_right Z.add 0%Z (map (Z.pow (-1)) bits))
    with (sumZ (map (Z.pow (-1)) bits)).
  rewrite IH. destruct Hb as [-> | ->].
  - destruct (Z.eq_dec 0%Z 1%Z) as [E|_]; [discriminate E|].
    change ((-1) ^ 0)%Z with 1%Z. lia.
  - destruct (Z.eq_dec 1%Z 1%Z) as [_|E]; [|now destruct E].
    change ((-1) ^ 1)%Z with (-1)%Z. lia.
Qed.

Lemma length_pos_Q (A : Type) (l : list A) :
  l <> [] -> 0 < inject_Z (Z.of_nat (length l)).
Proof.
  intros Hl. change 0 with (inject_Z 0). rewrite <- Zlt_Qlt.
  destruct l; [contradiction | cbn [length]; lia].
Qed.

Lemma z_val_shape (b : bitstrings) :
  (n_qubits b = 1%nat -> exists v, z_val b = Return v) /\
  (n_qubits b <> 1%nat -> z_val b = Raise ValueError).
Proof.
  unfold z_val, np_mean_axis0.
  destruct (n_qubits b) as [|[|n]]; cbn [seq map item]; split;
    intros H; try discriminate H; try (now destruct H); eauto.
Qed.

(** X1.  [.item()] accepts the mean of a one-column array only: the
    extraction returns a value exactly for arrays of one qubit and raises
    [ValueError] for every other number of columns, zero included. *)
Theorem z_val_one_column (b : bitstrings) :
  ((exists v, z_val b = Return v) <-> n_qubits b = 1%nat) /\
  (z_val b = Raise ValueError <-> n_qubits b <> 1%nat).
Proof.
  destruct (z_val_shape b) as [Hone Hother].
  destruct (Nat.eq_dec (n_qubits b) 1%nat) as [E|E].
  - destruct (Hone E) as [v Hv]. rewrite Hv. split; split; intros H.
    + exact E.
    + now exists v.
    + discriminate H.
    + contradiction.
  - rewrite (Hother E). split; split; intros H.
    + destruct H as [v Hv]. discriminate Hv.
    + contradiction.
    + exact E.
    + reflexivity.
Qed.

Lemma zeros_ones_length (bits : list Z) :
  Forall (fun b => b = 0%Z \/ b = 1%Z) bits ->
  (zeros bits + ones bits = length bits)%nat.
Proof.
  unfold zeros, ones.
  induction 1 as [|b bits Hb _ IH]; [reflexivity|].
  cbn [count_occ length].
  destruct Hb as [-> | ->].
  - destruct (Z.eq_dec 0%Z 0%Z) as [_|E]; [|now destruct E].
    destruct (Z.eq_dec 0%Z 1%Z) as [E|_]; [discriminate E|]. lia.
  - destruct (Z.eq_dec 1%Z 0%Z) as [E|_]; [discriminate E|].
    destruct (Z.eq_dec 1%Z 1%Z) as [_|E]; [|now destruct E]. lia.
Qed.

(** X2.  For a non-empty list of 0/1 outcomes the extracted value is the
    one quotient of the integer (number of zeros - number of ones) by the
    number of shots. *)
Theorem z_val_zeros_minus_ones (bits : list Z) :
  bits <> [] ->
  Forall (fun b => b = 0%Z \/ b = 1%Z) bits ->
  z_val (single_qubit bits) =
  Return (inject_Z (Z.of_nat (zeros bits) - Z.of_nat (ones bits)) /
          inject_Z (Z.of_nat (length bits))).
Proof.
  intros _ Hbits. rewrite z_val_single_qubit.
  rewrite (sum_of_signs_count bits Hbits).
  pose proof (zeros_ones_length bits Hbits) as Hlen.
  do 2 f_equal. f_equal. lia.
Qed.

(** X3.  For a non-empty list of 0/1 outcomes the extracted value lies
    between -1 and 1. *)
Theorem z_val_bounds (bits : list Z) :
  bits <> [] ->
  Forall (fun b => b = 0%Z \/ b = 1%Z) bits ->
  exists v, z_val (single_qubit bits) = Return v /\ -1 <= v /\ v <= 1.
Proof.
  intros Hne Hbits. eexists. split; [apply z_val_single_qubit|].
  rewrite (sum_of_signs_count bits Hbits).
  pose proof (length_pos_Q _ bits Hne) as Hpos.
  pose proof (ones_le_length bits) as Hle.
  split.
  - apply Qle_shift_div_l; [exact Hpos|].
    change (-1) with (inject_Z (-1)).
    rewrite <- inject_Z_mult, <- Zle_Qle. lia.
  - apply Qle_shift_div_r; [exact Hpos|].
    change 1 with (inject_Z 1).
    rewrite <- inject_Z_mult, <- Zle_Qle. lia.
Qed.

Lemma z_vals_returns (all_bitstrings : list bitstrings) :
  Forall (fun b => n_qubits b = 1%nat) all_bitstrings ->
  exists vs,
    z_vals all_bitstrings = Return vs /\
    Forall2 (fun b v => z_val b = Return v) all_bitstrings vs.
Proof.
  induction 1 as [|b bs Hb _ [vs [E HF]]]; cbn [z_vals].
  - exists []. split; [reflexivity | constructor].
  - destruct (proj1 (z_val_shape b) Hb) as [v Hv].
    rewrite Hv, E. exists (v :: vs). split; [reflexivity|].
    now constructor.
Qed.

Lemma z_vals_raises (all_bitstrings : list bitstrings) :
  Exists (fun b => n_qubits b <> 1%nat) all_bitstrings ->
  z_vals all_bitstrings = Raise ValueError.
Proof.
  induction 1 as [b bs Hb | b bs _ IH]; cbn [z_vals].
  - now rewrite (proj2 (z_val_shape b) Hb).
  - rewrite IH. destruct (z_val b) as [v|[|]] eqn:E; [reflexivity..|].
    exfalso. unfold z_val in E.
    destruct (np_mean_axis0 _ _) as [|? [|? ?]]; discriminate E.
Qed.

(** X4.  The comprehension over the arrays of a record returns one value
    per array, each the extraction of its array, when every array has one
    column; one array of another shape makes the whole comprehension raise
    [ValueError]. *)
Theorem z_vals_all_or_nothing (all_bitstrings : list bitstrings) :
  (Forall (fun b => n_qubits b = 1%nat) all_bitstrings ->
   exists vs,
     z_vals all_bitstrings = Return vs /\
     Forall2 (fun b v => z_val b = Return v) all_bitstrings vs) /\
  (Exists (fun b => n_qubits b <> 1%nat) all_bitstrings ->
   z_vals all_bitstrings = Raise ValueError).
Proof.
  split; intros H.
  - now apply z_vals_returns.
  - now apply z_vals_raises.
Qed.

(** ** The objective function: exceptions *)


Section FitterExceptions.

Context {B : Backend}.
Variable thetas : list Q.

(** The loop stops at the first angle at which the simulator raises. *)
Lemma for_theta_raises (sim : Simulator) (ts1 ts2 zs1 : list Q) (theta : Q) :
  simulated sim ts1 zs1 ->
  simulate_z sim theta = None ->
  forall acc s,
    for_theta sim (ts1 ++ theta :: ts2) acc s =
    (Raise ExternalError,
     {| heap := heap s;
        calls := calls s ++ map Simulate ts1 ++ [Simulate theta] |}).
Proof.
  intros Hzs Hnone.
  induction Hzs as [|t z ts zs Hz _ IH]; intros acc s.
  - cbn [app for_theta map]. unfold bind at 1.
    unfold simulated_z, bind, log, external. now rewrite Hnone.
  - cbn [app for_theta map]. unfold bind at 1.
    unfold simulated_z, bind, log, external. rewrite Hz. unfold ret.
    rewrite IH. cbn [heap calls]. now rewrite <- !app_assoc.
Qed.

(** X5.  A vector that does not have exactly three components makes the
    call raise [ValueError] at the unpacking, before anything else
    happens: the state is as before. *)
Theorem obj_func_wrong_arity (f : closure) (x : list Q) (s : state) :
  length x <> 3%nat ->
  obj_func thetas f x s = (Raise ValueError, s).
Proof.
  intros Hlen.
  destruct x as [|d [|c [|r [|? ?]]]]; try reflexivity.
  now destruct Hlen.
Qed.


(** X7.  When the simulator can not be built for the three components, a
    call without a negative component raises what the constructor raises,
    simulates nothing and leaves [all_results] alone. *)
Theorem obj_func_simulator_rejected (f : closure) (d c r : Q) (s : state) :
  0 <= d -> 0 <= c -> 0 <= r ->
  DensityMatrixSimulator d c r = None ->
  obj_func thetas f [d; c; r] s =
  (Raise ExternalError,
   {| heap := heap s; calls := calls s ++ [NewSimulator d c r] |}).
Proof.
  intros Hd Hc Hr Hsim.
  assert (E : Qltb d 0 || Qltb c 0 || Qltb r 0 = false)
    by now apply penalty_test_false.
  now rewrite obj_func_cases, E, Hsim.
Qed.

(** X8.  When the simulation raises at a sweep angle, the call raises
    there: the angles after it are not simulated and nothing is appended
    to [all_results]. *)
Theorem obj_func_simulation_raises (f : closure) (d c r : Q) (s : state)
    (sim : Simulator) (ts1 ts2 zs1 : list Q) (theta : Q) :
  0 <= d -> 0 <= c -> 0 <= r ->
  DensityMatrixSimulator d c r = Some sim ->
  thetas = ts1 ++ theta :: ts2 ->
  simulated sim ts1 zs1 ->
  simulate_z sim theta = None ->
  obj_func thetas f [d; c; r] s =
  (Raise ExternalError,
   {| heap := heap s;
      calls := calls s ++ NewSimulator d c r :: map Simulate ts1 ++ [Simulate theta] |}).
Proof.
  intros Hd Hc Hr Hsim Hts Hzs Hnone.
  assert (E : Qltb d 0 || Qltb c 0 || Qltb r 0 = false)
    by now apply penalty_test_false.
  rewrite obj_func_cases, E, Hsim. cbv zeta.
  rewrite Hts, (for_theta_raises sim ts1 ts2 zs1 theta Hzs Hnone).
  cbn [heap calls]. now rewrite <- app_assoc.
Qed.

End FitterExceptions.

(** ** The objective function: bounds and repeated calls *)

Lemma np_sum_abs_le (zs obs : list Q) :
  length zs = length obs ->
  Forall (fun z => Qabs z <= 1) zs ->
  Forall (fun e => Qabs e <= 1) obs ->
  np_sum (np_abs (zip_with Qminus zs obs)) <=
  2 * inject_Z (Z.of_nat (length zs)).
Proof.
  intros Hlen Hzs. revert obs Hlen.
  induction Hzs as [|z zs Hz _ IH]; intros [|e obs] Hlen Hobs;
    try discriminate Hlen.
  - cbn. discriminate.
  - inversion Hobs as [|? ? He Hobs']; subst.
    cbn [zip_with np_abs map np_sum fold_right length].
    change (Qabs (z - e) + np_sum (np_abs (zip_with Qminus zs obs)) <=
            2 * inject_Z (Z.of_nat (S (length zs)))).
    rewrite Nat2Z.inj_succ. unfold Z.succ. rewrite inject_Z_plus.
    assert (Hze : Qabs (z - e) <= 2).
    { unfold Qminus. eapply Qle_trans; [apply Qabs_triangle|].
      rewrite Qabs_opp. change 2 with (1 + 1).
      now apply Qplus_le_compat. }
    specialize (IH obs (eq_add_S _ _ Hlen) Hobs').
    assert (E : 2 * (inject_Z (Z.of_nat (length zs)) + inject_Z 1) ==
                2 + 2 * inject_Z (Z.of_nat (length zs))) by ring.
    rewrite E. now apply Qplus_le_compat.
Qed.

Section FitterCallers.

Context {B : Backend}.
Variable thetas : list Q.

Lemma for_theta_returns (sim : Simulator) (ts : list Q) :
  forall acc s zs,
    fst (for_theta sim ts acc s) = Return zs ->
    exists zs', zs = acc ++ zs' /\ simulated sim ts zs'.
Proof.
  induction ts as [|theta ts IH]; intros acc s zs.
  - cbn. intros [= <-]. exists []. split; [now rewrite app_nil_r | constructor].
  - cbn [for_theta]. unfold bind at 1.
    unfold simulated_z, bind, log, external.
    destruct (simulate_z sim theta) as [z|] eqn:Hz; [|discriminate].
    unfold ret. intros Hret. destruct (IH _ _ _ Hret) as (zs' & -> & Hzs').
    exists (z :: zs'). split; [now rewrite <- app_assoc | now constructor].
Qed.

(** What a returning call leaves in the list. *)
Lemma obj_func_returns_appended (f : closure) (x : list Q) (s : state)
    (cost : Q) (rs : list ndarray) :
  fst (obj_func thetas f x s) = Return cost ->
  heap s !! all_results f = Some rs ->
  heap (snd (obj_func thetas f x s)) !! all_results f =
  Some (rs ++ option_list (appended thetas x)).
Proof.
  destruct x as [|d [|c [|r [|? ?]]]]; try discriminate.
  rewrite obj_func_cases. unfold appended, simulation.
  destruct (Qltb d 0 || Qltb c 0 || Qltb r 0).
  { intros _ Hrs. cbn. now rewrite app_nil_r. }
  destruct (DensityMatrixSimulator d c r) as [sim|]; [|discriminate].
  cbv zeta.
  pose proof (for_theta_frame sim thetas []
                {| heap := heap s; calls := calls s ++ [NewSimulator d c r] |})
    as (Hh & _ & _).
  pose proof (for_theta_returns sim thetas []
                {| heap := heap s; calls := calls s ++ [NewSimulator d c r] |})
    as Hret.
  destruct (for_theta sim thetas [] _) as [[zs|e] s2]; [|discriminate].
  destruct (Hret zs eq_refl) as (zs' & -> & Hzs').
  cbn [snd heap fst] in *. intros _ Hrs.
  rewrite (mapM_Some_2 _ _ _ Hzs'). cbn [app option_list].
  now rewrite Hh, lookup_alter_eq, Hrs.
Qed.

(** X9.  With as many observed values as sweep angles, all of absolute
    value at most 1 like the simulated values, the cost is at most twice
    the number of sweep angles; with fewer than 500 angles it stays below
    the penalty 1000. *)
Theorem obj_func_cost_below_penalty (f : closure) (d c r : Q) (s : state)
    (sim : Simulator) (zs : list Q) :
  0 <= d -> 0 <= c -> 0 <= r ->
  DensityMatrixSimulator d c r = Some sim ->
  simulated sim thetas zs ->
  length (data_expectations f) = length thetas ->
  Forall (fun z => Qabs z <= 1) zs ->
  Forall (fun e => Qabs e <= 1) (data_expectations f) ->
  exists cost,
    fst (obj_func thetas f [d; c; r] s) = Return cost /\
    cost <= 2 * inject_Z (Z.of_nat (length thetas)) /\
    ((length thetas < 500)%nat -> cost < 1000).
Proof.
  intros Hd Hc Hr Hsim Hzs Hlen Hz1 He1.
  pose proof (for_theta_length sim thetas zs Hzs) as Hl.
  rewrite (obj_func_simulated_run thetas f d c r s sim zs Hd Hc Hr Hsim Hzs).
  rewrite np_subtract_same_length by congruence.
  eexists. split; [reflexivity|].
  assert (Hle : np_sum (np_abs (zip_with Qminus zs (data_expectations f))) <=
                2 * inject_Z (Z.of_nat (length thetas))).
  { rewrite <- Hl. apply np_sum_abs_le; [congruence | assumption..]. }
  split; [exact Hle|].
  intros Hn. eapply Qle_lt_trans; [exact Hle|].
  change 2 with (inject_Z 2). change 1000 with (inject_Z 1000).
  rewrite <- inject_Z_mult, <- Zlt_Qlt. lia.
Qed.

Lemma evaluate_cons (f : closure) (x : list Q) (xs : list (list Q)) (s : state) :
  evaluate thetas f (x :: xs) s =
  match obj_func thetas f x s with
  | (Return cost, s1) =>
      match evaluate thetas f xs s1 with
      | (Return costs, s2) => (Return (cost :: costs), s2)
      | (Raise e, s2) => (Raise e, s2)
      end
  | (Raise e, s1) => (Raise e, s1)
  end.
Proof. reflexivity. Qed.

(** X10.  When a caller evaluates the objective at the points [xs] and
    every call returns, it gets one cost per point, and [all_results] has
    grown by exactly the simulated arrays of the points without a negative
    component, in the order of the calls: its last entry, [results[-1]],
    belongs to the last such point. *)
Theorem evaluate_all_results (f : closure) (xs : list (list Q)) :
  forall (s : state) (rs : list ndarray) (costs : list Q),
    heap s !! all_results f = Some rs ->
    fst (evaluate thetas f xs s) = Return costs ->
    heap (snd (evaluate thetas f xs s)) !! all_results f =
      Some (rs ++ omap (appended thetas) xs) /\
    length costs = length xs.
Proof.
  induction xs as [|x xs IH]; intros s rs costs Hrs.
  - cbn. intros [= <-]. split; [now rewrite app_nil_r | reflexivity].
  - rewrite !evaluate_cons.
    pose proof (obj_func_returns_appended f x s) as Happ.
    destruct (obj_func thetas f x s) as [[cost|e] s1]; [|discriminate].
    specialize (Happ cost rs eq_refl Hrs). cbn [snd] in Happ.
    specialize (IH s1 (rs ++ option_list (appended thetas x))).
    destruct (evaluate thetas f xs s1) as [[costs'|e] s2]; [|discriminate].
    cbn [fst snd] in *. intros [= <-].
    destruct (IH costs' Happ eq_refl) as [Hheap Hlen].
    split; [|cbn [length]; now rewrite Hlen].
    rewrite Hheap, <- app_assoc. f_equal. f_equal.
    cbn [omap list_omap]. now destruct (appended thetas x).
Qed.

(** X11.  A list created by a later [get_obj_func] is a new object: the
    list of an objective that exists already is at another location, and
    neither the creation nor any call of the new objective changes it. *)
Theorem get_obj_func_independent (f1 f2 : closure) (data : list Q)
    (l2 : loc) (s s2 : state) (rs : list ndarray) :
  heap s !! all_results f1 = Some rs ->
  get_obj_func data s = (Return (f2, l2), s2) ->
  all_results f2 <> all_results f1 /\
  heap s2 !! all_results f1 = Some rs /\
  forall x, heap (snd (obj_func thetas f2 x s2)) !! all_results f1 = Some rs.
Proof.
  intros Hrs. unfold get_obj_func, bind, new_list, ret. intros [= <- <- <-].
  cbn [all_results heap].
  assert (Hne : fresh (dom (heap s)) <> all_results f1).
  { intros E. apply (is_fresh (dom (heap s))). rewrite E.
    apply elem_of_dom. now exists rs. }
  assert (Hrs2 : <[fresh (dom (heap s)) := []]> (heap s) !! all_results f1 = Some rs)
    by now rewrite lookup_insert_ne.
  split; [exact Hne|]. split; [exact Hrs2|].
  intros x.
  destruct (obj_func_frame thetas
              {| data_expectations := data; all_results := fresh (dom (heap s)) |}
              x {| heap := <[fresh (dom (heap s)) := []]> (heap s); calls := calls s |})
    as [[Hh | [zs Hh]] _]; rewrite Hh; cbn [heap all_results].
  - exact Hrs2.
  - now rewrite lookup_alter_ne.
Qed.

End FitterCallers.

(** ** Loading the records *)

(** X12.  On a record whose ['all_bitstrings'] is a list of one-column
    arrays, the loop body stores under ['z_vals'] the list of the
    extracted values, one per array and in their order, removes
    ['all_bitstrings'] and leaves every other key as it was. *)
Theorem extract_z_vals_record (record : gmap string pyval)
    (arrays : list bitstrings) :
  record !! "all_bitstrings" = Some (BitArrays arrays) ->
  Forall (fun b => n_qubits b = 1%nat) arrays ->
  exists zs row,
    extract_z_vals record = inr row /\
    row !! "z_vals" = Some (Floats zs) /\
    Forall2 (fun b v => z_val b = Return v) arrays zs /\
    row !! "all_bitstrings" = None /\
    forall key, key <> "z_vals" -> key <> "all_bitstrings" ->
                row !! key = record !! key.
Proof.
  intros Hkey Hshape.
  destruct (z_vals_returns arrays Hshape) as (zs & Hzs & Hall).
  exists zs, (delete "all_bitstrings" (<["z_vals" := Floats zs]> record)).
  unfold extract_z_vals. rewrite Hkey, Hzs.
  split; [reflexivity|]. split.
  { rewrite lookup_delete_ne by discriminate. apply lookup_insert_eq. }
  split; [exact Hall|]. split; [apply lookup_delete_eq|].
  intros key Hz Hb.
  rewrite lookup_delete_ne by congruence. now rewrite lookup_insert_ne.
Qed.

(** X13.  The loop body raises [KeyError] on a record without
    ['all_bitstrings'], and [ValueError] when one of the arrays does not
    have exactly one column. *)
Theorem extract_z_vals_raises (record : gmap string pyval) :
  (record !! "all_bitstrings" = None ->
   extract_z_vals record = inl (KeyError "all_bitstrings")) /\
  (forall arrays,
     record !! "all_bitstrings" = Some (BitArrays arrays) ->
     Exists (fun b => n_qubits b <> 1%nat) arrays ->
     extract_z_vals record = inl (Raised ValueError)).
Proof.
  unfold extract_z_vals. split.
  - now intros ->.
  - intros arrays -> Hbad. now rewrite (z_vals_raises arrays Hbad).
Qed.

Section LoaderProperties.

Variable flatten : gmap string pyval -> load_error + gmap string pyval.

Lemma load_records_app (loaded rows : list (gmap string pyval)) :
  Forall2 (loads flatten) loaded rows ->
  forall rest records,
    load_records flatten (loaded ++ rest) records =
    load_records flatten rest (records ++ rows).
Proof.
  induction 1 as [|record row loaded rows (flat & Hflat & Hrow) _ IH];
    intros rest records.
  - now rewrite app_nil_r.
  - cbn [app load_records]. rewrite Hflat, Hrow, IH.
    now rewrite <- app_assoc.
Qed.

(** X14.  When every loaded record can be flattened and extracted, the
    loop ends without an exception and has appended one row per record,
    in the order in which the records were loaded. *)
Theorem load_records_all (loaded rows records : list (gmap string pyval)) :
  Forall2 (loads flatten) loaded rows ->
  load_records flatten loaded records = (None, records ++ rows) /\
  length rows = length loaded.
Proof.
  intros Hall. split.
  - rewrite <- (app_nil_r loaded). now rewrite (load_records_app _ _ Hall).
  - symmetry. exact (Forall2_length _ _ _ Hall).
Qed.

(** X15.  The first record on which the flattening or the extraction
    raises ends the loop with that exception: the rows of the records
    before it have been appended, the records after it are not looked
    at. *)
Theorem load_records_stops (before after rows records : list (gmap string pyval))
    (bad : gmap string pyval) (e : load_error) :
  Forall2 (loads flatten) before rows ->
  fails flatten bad e ->
  load_records flatten (before ++ bad :: after) records =
  (Some e, records ++ rows).
Proof.
  intros Hall Hbad. rewrite (load_records_app _ _ Hall).
  cbn [load_records].
  destruct Hbad as [-> | (flat & -> & ->)]; reflexivity.
Qed.

End LoaderProperties.

(** ** The dummy measurement gate *)

Lemma append_suffix_inj (c : Ascii.ascii) (s1 s2 : string) :
  s1 +:+ String c "" = s2 +:+ String c "" -> s1 = s2.
Proof.
  revert s2. induction s1 as [|a s1 IH]; intros [|b s2]; cbn; intros H.
  - reflexivity.
  - injection H as _ H. destruct s2; discriminate H.
  - injection H as _ H. destruct s1; discriminate H.
  - injection H as -> H. f_equal. now apply IH.
Qed.

(** X16.  [repr] and [str] of a dummy measurement gate determine its
    number of qubits: two gates print alike only if they are the same
    gate. *)
Theorem gate_repr_str_inj (g1 g2 : DummyMeasurementGate) :
  (gate_repr g1 = gate_repr g2 -> g1 = g2) /\
  (gate_str g1 = gate_str g2 -> g1 = g2).
Proof.
  destruct g1 as [n], g2 as [m]. unfold gate_repr, gate_str.
  cbn [num_qubits].
  destruct (Nat.eqb n 1) eqn:En, (Nat.eqb m 1) eqn:Em;
    try apply Nat.eqb_eq in En; try apply Nat.eqb_eq in Em;
    split; intros H; subst; try reflexivity; try discriminate H;
    cbn in H; injection H as H;
    apply append_suffix_inj in H; now apply pretty_nat_inj in H as ->.
Qed.

(** ** Worked instances of the further properties *)

Lemma bits0111 : Forall (fun b => b = 0%Z \/ b = 1%Z) [0; 1; 1; 1]%Z.
Proof. repeat (constructor; [auto|]). constructor. Defined.

Lemma z_val_zeros_minus_ones_witness :
  z_val (single_qubit [0; 1; 1; 1]%Z) =
  Return (inject_Z (Z.of_nat (zeros [0; 1; 1; 1]%Z) - Z.of_nat (ones [0; 1; 1; 1]%Z)) /
          inject_Z (Z.of_nat (length [0; 1; 1; 1]%Z))).
Proof.
  apply (z_val_zeros_minus_ones [0; 1; 1; 1]%Z); [discriminate | exact bits0111].
Defined.

Lemma z_val_bounds_witness :
  exists v, z_val (single_qubit [0; 1; 1; 1]%Z) = Return v /\ -1 <= v /\ v <= 1.
Proof.
  apply (z_val_bounds [0; 1; 1; 1]%Z); [discriminate | exact bits0111].
Defined.

Lemma obj_func_wrong_arity_witness :
  obj_func (B:=stub) [0; 1] (objective0 [1; 0]) [0; 0] state0 =
  (Raise ValueError, state0).
Proof.
  apply (obj_func_wrong_arity (B:=stub) [0; 1] (objective0 [1; 0]) [0; 0] state0).
  discriminate.
Defined.


Lemma obj_func_simulator_rejected_witness :
  obj_func (B:=stub) [0; 1] (objective0 [1; 0]) [2; 0; 0] state0 =
  (Raise ExternalError,
   {| heap := heap state0; calls := [NewSimulator 2 0 0] |}).
Proof.
  apply (obj_func_simulator_rejected (B:=stub) [0; 1] (objective0 [1; 0])
           2 0 0 state0).
  - discriminate.
  - discriminate.
  - discriminate.
  - reflexivity.
Defined.

Lemma obj_func_simulation_raises_witness :
  obj_func (B:=partial_stub) [0; -1; 1] (objective0 [1; 0; 0]) [0; 0; 0] state0 =
  (Raise ExternalError,
   {| heap := heap state0;
      calls := [NewSimulator 0 0 0; Simulate 0; Simulate (-1)] |}).
Proof.
  apply (obj_func_simulation_raises (B:=partial_stub) [0; -1; 1]
           (objective0 [1; 0; 0]) 0 0 0 state0 (0, 0, 0) [0] [1] [1] (-1)).
  - discriminate.
  - discriminate.
  - discriminate.
  - reflexivity.
  - reflexivity.
  - repeat constructor.
  - reflexivity.
Defined.

Lemma obj_func_cost_below_penalty_witness :
  exists cost,
    fst (obj_func (B:=stub) [0; 1] (objective0 [1 # 2; -1]) [0; 0; 0] state0) =
      Return cost /\
    cost <= 2 * inject_Z (Z.of_nat (length [0; 1])) /\
    ((length [0; 1] < 500)%nat -> cost < 1000).
Proof.
  apply (obj_func_cost_below_penalty (B:=stub) [0; 1] (objective0 [1 # 2; -1])
           0 0 0 state0 (0, 0, 0) [1; 0]).
  - discriminate.
  - discriminate.
  - discriminate.
  - reflexivity.
  - exact stub_simulated.
  - reflexivity.
  - repeat constructor; discriminate.
  - repeat constructor; discriminate.
Defined.

Lemma evaluate_all_results_witness :
  heap (snd (evaluate (H:=stub) [0; 1] (objective0 [1; 0])
               [[0; 0; 0]; [0; -1; 0]; [1 # 2; 0; 0]] state0))
    !! all_results (objective0 [1; 0]) =
    Some ([] ++ omap (appended (H:=stub) [0; 1])
                  [[0; 0; 0]; [0; -1; 0]; [1 # 2; 0; 0]]) /\
  length [0; 1000; 2 # 4] = length [[0; 0; 0]; [0; -1; 0]; [1 # 2; 0; 0]].
Proof.
  apply (evaluate_all_results (B:=stub) [0; 1] (objective0 [1; 0])
           [[0; 0; 0]; [0; -1; 0]; [1 # 2; 0; 0]] state0 [] [0; 1000; 2 # 4]).
  - reflexivity.
  - reflexivity.
Defined.

Lemma get_obj_func_independent_witness :
  all_results {| data_expectations := [1]; all_results := 1%nat |} <>
    all_results (objective0 [1; 0]) /\
  heap {| heap := <[1%nat := []]> (heap state0); calls := [] |}
    !! all_results (objective0 [1; 0]) = Some [] /\
  forall x,
    heap (snd (obj_func (B:=stub) [0; 1]
                 {| data_expectations := [1]; all_results := 1%nat |} x
                 {| heap := <[1%nat := []]> (heap state0); calls := [] |}))
      !! all_results (objective0 [1; 0]) = Some [].
Proof.
  apply (get_obj_func_independent (B:=stub) [0; 1] (objective0 [1; 0])
           {| data_expectations := [1]; all_results := 1%nat |} [1] 1%nat
           state0 {| heap := <[1%nat := []]> (heap state0); calls := [] |} []).
  - reflexivity.
  - reflexivity.
Defined.

Lemma extract_z_vals_record_witness :
  exists zs row,
    extract_z_vals record0 = inr row /\
    row !! "z_vals" = Some (Floats zs) /\
    Forall2 (fun b v => z_val b = Return v)
      [single_qubit [0; 0]%Z; single_qubit [0; 1]%Z] zs /\
    row !! "all_bitstrings" = None /\
    forall key, key <> "z_vals" -> key <> "all_bitstrings" ->
                row !! key = record0 !! key.
Proof.
  apply (extract_z_vals_record record0
           [single_qubit [0; 0]%Z; single_qubit [0; 1]%Z]).
  - reflexivity.
  - repeat constructor.
Defined.

Lemma record0_loads : loads stub_flatten record0 row0.
Proof.
  exists (<["qubit" := Opaque "q"]> (delete "task" record0)).
  split; reflexivity.
Defined.

Lemma load_records_all_witness :
  load_records stub_flatten [record0; record0] [] = (None, [] ++ [row0; row0]) /\
  length [row0; row0] = length [record0; record0].
Proof.
  apply (load_records_all stub_flatten [record0; record0] [row0; row0] []).
  repeat constructor; exact record0_loads.
Defined.

Lemma load_records_stops_witness :
  load_records stub_flatten ([record0] ++ ∅ :: [record0]) [] =
  (Some (KeyError "task"), [] ++ [row0]).
Proof.
  apply (load_records_stops stub_flatten [record0] [record0] [row0] [] ∅
           (KeyError "task")).
  - repeat constructor. exact record0_loads.
  - left. reflexivity.
Defined.

(** ** The list of results after one call *)

Section FitterAppends.

Context {B : Backend}.
Variable thetas : list Q.

(** A call in which the simulator raises, at its construction or at an
    angle, leaves the heap as it is. *)
Lemma obj_func_simulator_raised (f : closure) (d c r : Q) (s : state) :
  0 <= d -> 0 <= c -> 0 <= r ->
  simulation thetas d c r = None ->
  heap (snd (obj_func thetas f [d; c; r] s)) = heap s.
Proof.
  intros Hd Hc Hr Hnone.
  assert (E : Qltb d 0 || Qltb c 0 || Qltb r 0 = false)
    by now apply penalty_test_false.
  rewrite obj_func_cases, E. unfold simulation in Hnone.
  destruct (DensityMatrixSimulator d c r) as [sim|]; [|reflexivity].
  cbv zeta.
  pose proof (for_theta_frame sim thetas []
                {| heap := heap s; calls := calls s ++ [NewSimulator d c r] |})
    as (Hh & _ & _).
  pose proof (for_theta_returns sim thetas []
                {| heap := heap s; calls := calls s ++ [NewSimulator d c r] |})
    as Hret.
  destruct (for_theta sim thetas [] _) as [[zs|e] s2]; cbn [snd fst] in *.
  - destruct (Hret zs eq_refl) as (zs' & _ & Hzs').
    rewrite (mapM_Some_2 _ _ _ Hzs') in Hnone. discriminate Hnone.
  - exact Hh.
Qed.

(** C10, as amended.  Let [all_results] hold the arrays [rs].  A call
    with a negative component leaves the heap, and so the list, as it is.
    A call without one, for which the simulator is built and answers [zs]
    at the sweep angles, leaves the list as [rs] followed by the one array
    [zs], whose length is the number of sweep angles; this also holds when
    the subtraction of the observed values then raises.  A call without a
    negative component in which the simulator raises, at its construction
    or at an angle, appends nothing. *)
Theorem obj_func_all_results (f : closure) (d c r : Q) (s : state)
    (rs : list ndarray) :
  heap s !! all_results f = Some rs ->
  (d < 0 \/ c < 0 \/ r < 0 ->
   heap (snd (obj_func thetas f [d; c; r] s)) = heap s) /\
  (forall sim zs,
     0 <= d -> 0 <= c -> 0 <= r ->
     DensityMatrixSimulator d c r = Some sim ->
     simulated sim thetas zs ->
     heap (snd (obj_func thetas f [d; c; r] s)) !! all_results f =
       Some (rs ++ [zs]) /\
     length zs = length thetas) /\
  (0 <= d -> 0 <= c -> 0 <= r ->
   simulation thetas d c r = None ->
   heap (snd (obj_func thetas f [d; c; r] s)) = heap s).
Proof.
  intros Hrs. split; [|split].
  - intros H. now rewrite obj_func_penalty_run.
  - intros sim zs Hd Hc Hr Hsim Hzs.
    rewrite (obj_func_simulated_run thetas f d c r s sim zs Hd Hc Hr Hsim Hzs).
    cbn [snd heap]. rewrite lookup_alter_eq, Hrs.
    split; [reflexivity|]. exact (for_theta_length sim thetas zs Hzs).
  - intros Hd Hc Hr Hnone. now apply obj_func_simulator_raised.
Qed.

End FitterAppends.

Lemma obj_func_all_results_witness :
  heap state0 !! all_results (objective0 [1; 0; 3]) = Some [] /\
  heap (snd (obj_func (B:=stub) [0; 1] (objective0 [1; 0; 3]) [0; -1; 0] state0)) =
    heap state0 /\
  heap (snd (obj_func (B:=stub) [0; 1] (objective0 [1; 0; 3]) [0; 0; 0] state0))
    !! all_results (objective0 [1; 0; 3]) = Some [[1; 0]] /\
  length [1; 0] = length [0; 1].
Proof.
  assert (H : heap state0 !! all_results (objective0 [1; 0; 3]) = Some [])
    by reflexivity.
  split; [exact H|]. split.
  - apply (proj1 (obj_func_all_results (B:=stub) [0; 1] (objective0 [1; 0; 3])
                    0 (-1) 0 state0 [] H)).
    right. left. reflexivity.
  - apply (proj1 (proj2 (obj_func_all_results (B:=stub) [0; 1]
                           (objective0 [1; 0; 3]) 0 0 0 state0 [] H))
             (0, 0, 0) [1; 0]).
    + discriminate.
    + discriminate.
    + discriminate.
    + reflexivity.
    + exact stub_simulated.
Defined.
